(** * gen_net: messages, identities, the contract net and completion parsing

  A shallow embedding of the Python sources

    - [gen_net/abstract.py]                 (module [Abstract])
    - [gen_net/llegos/fipa/contract_net.py] (modules [Networks], [ContractNetProtocol])
    - [gen_net/openai.py]                   (module [OpenAI])
    - [gen_net/test_message.py]             (module [Messages], the graph under test)

  Python values are a small inductive type, exceptions are an explicit
  error type threaded through a result monad, and object construction
  threads a [World] that records every entity built so far. *)

From Stdlib Require Import String Ascii List ZArith Lia Bool.
From stdpp Require Import base decidable countable gmap strings list.

Set Warnings "-register-all".

Local Open Scope string_scope.
Local Open Scope list_scope.

(* ===================================================================== *)
(** ** Python values, exceptions and results                              *)
(* ===================================================================== *)

Module Py.

(** The Python values that reach the modelled code: [None], booleans,
    integers, strings, lists and (insertion ordered) dictionaries. *)
Inductive pyval : Type :=
| VNone
| VBool (b : bool)
| VInt (z : Z)
| VStr (s : string)
| VList (l : list pyval)
| VDict (d : list (string * pyval)).

Definition dict : Type := list (string * pyval).

(** The exceptions the modelled code can raise. *)
Inductive exn : Type :=
| KeyError (key : string)
| TypeError
| IndexError
| AssertionError
| ValidationError (field : string)
| ReferenceError (ident : string)
| JSONDecodeError.

Inductive result (A : Type) : Type :=
| Ok (a : A)
| Raise (e : exn).
Arguments Ok {A} a.
Arguments Raise {A} e.

Definition bind {A B} (r : result A) (k : A -> result B) : result B :=
  match r with
  | Ok a => k a
  | Raise e => Raise e
  end.

Definition raises {A} (r : result A) : bool :=
  match r with Ok _ => false | Raise _ => true end.

(** [assert b] *)
Definition py_assert (b : bool) : result unit :=
  if b then Ok tt else Raise AssertionError.

(** [d.get(k)] on an insertion ordered dictionary: the first binding. *)
Fixpoint dict_get (k : string) (d : dict) : option pyval :=
  match d with
  | [] => None
  | (k', v) :: d' => if String.eqb k k' then Some v else dict_get k d'
  end.

(** [v[k]] for a string subscript [k]: a dictionary answers or raises
    [KeyError]; strings and lists want integer indices, and the scalar
    values are not subscriptable at all: [TypeError]. *)
Definition getitem (v : pyval) (k : string) : result pyval :=
  match v with
  | VDict d =>
      match dict_get k d with
      | Some x => Ok x
      | None => Raise (KeyError k)
      end
  | _ => Raise TypeError
  end.

(** Is [needle] a substring of [s] ([needle in s] on strings)? *)
Fixpoint substringb (needle s : string) : bool :=
  String.prefix needle s
  || match s with
     | EmptyString => false
     | String _ s' => substringb needle s'
     end.

Definition is_str (k : string) (v : pyval) : bool :=
  match v with
  | VStr s => String.eqb s k
  | _ => false
  end.

(** [k in v] for a string [k]: key membership on a dictionary, substring
    test on a string, element test on a list; the scalar values are not
    iterable: [TypeError]. *)
Definition contains (k : string) (v : pyval) : result bool :=
  match v with
  | VDict d => Ok (match dict_get k d with Some _ => true | None => false end)
  | VStr s => Ok (substringb k s)
  | VList l => Ok (existsb (is_str k) l)
  | _ => Raise TypeError
  end.

(** [l[0]] *)
Definition item0 {A} (l : list A) : result A :=
  match l with
  | [] => Raise IndexError
  | x :: _ => Ok x
  end.

End Py.

Import Py.

Notation "'let*' x := c1 'in' c2" := (Py.bind c1 (fun x => c2))
  (at level 10, x name, c1 at level 100, c2 at level 200).

(* ===================================================================== *)
(** ** gen_net/abstract.py                                                *)
(* ===================================================================== *)

Module Abstract.

(** Every [AbstractObject] ever constructed, oldest first, as the pair of
    its class name and its id. *)
Record World : Type := { entities : list (string * string) }.

Definition used (w : World) : list string := map snd (entities w).

Definition register (cls ident : string) (w : World) : World :=
  {| entities := entities w ++ [(cls, ident)] |}.

Section Init.

(** [str(uuid4())]: the library call draws from the state of the run. *)
Variable uuid4 : World -> string.

(** [AbstractObject.__init__]: [id] defaults to the empty string, and an
    empty id is replaced by [ClassName:uuid]. *)
Definition AbstractObject_init (cls : string) (id_arg : option string)
    (w : World) : string * World :=
  let id0 := match id_arg with Some i => i | None => "" end in
  let id1 := if String.eqb id0 "" then cls +:+ ":" +:+ uuid4 w else id0 in
  (id1, register cls id1 w).

End Init.

(** What the code takes for granted about [uuid4]: the string drawn is new,
    no id in use ends with it. *)
Definition never_reissued (uuid4 : World -> string) : Prop :=
  forall (w : World) (i p : string), In i (used w) -> i <> p +:+ uuid4 w.

(** A [uuid4] for running the model: one character longer than every id
    in use, hence different from each of them. *)
Definition longest (l : list string) : nat :=
  fold_right (fun s n => Nat.max (String.length s) n) 0 l.

Fixpoint zeros (n : nat) : string :=
  match n with
  | 0 => ""
  | S n' => String "0" (zeros n')
  end.

Definition uuid4_long (w : World) : string := zeros (S (longest (used w))).

End Abstract.

Import Abstract.

(* ===================================================================== *)
(** ** Messages and agents (gen_net/llegos/networks.py, contract_net.py)   *)
(* ===================================================================== *)

Module Networks.

(** The message classes declared in [contract_net.py]. *)
Inductive MessageKind : Type :=
| CFP | Accept | Refuse | Propose | AcceptProposal | RejectProposal
| Failure | InformDone | InformResult | Request | Response.

#[global] Instance MessageKind_eq_dec : EqDecision MessageKind.
Proof. solve_decision. Defined.

Definition kind_code (k : MessageKind) : nat :=
  match k with
  | CFP => 0 | Accept => 1 | Refuse => 2 | Propose => 3
  | AcceptProposal => 4 | RejectProposal => 5 | Failure => 6
  | InformDone => 7 | InformResult => 8 | Request => 9 | Response => 10
  end.

Definition kind_of_code (n : nat) : MessageKind :=
  match n with
  | 0 => CFP | 1 => Accept | 2 => Refuse | 3 => Propose
  | 4 => AcceptProposal | 5 => RejectProposal | 6 => Failure
  | 7 => InformDone | 8 => InformResult | 9 => Request | _ => Response
  end.

#[global] Instance MessageKind_countable : Countable MessageKind.
Proof. apply (inj_countable' kind_code kind_of_code). by intros []. Defined.

(** [cls.__name__] *)
Definition class_name (k : MessageKind) : string :=
  match k with
  | CFP => "CFP" | Accept => "Accept" | Refuse => "Refuse"
  | Propose => "Propose" | AcceptProposal => "AcceptProposal"
  | RejectProposal => "RejectProposal" | Failure => "Failure"
  | InformDone => "InformDone" | InformResult => "InformResult"
  | Request => "Request" | Response => "Response"
  end.

(** The [method] tag each class declares. *)
Definition class_method (k : MessageKind) : string :=
  match k with
  | CFP => "cfp" | Accept => "accept" | Refuse => "refuse"
  | Propose => "propose" | AcceptProposal => "accept_proposal"
  | RejectProposal => "reject_proposal" | Failure => "failure"
  | InformDone => "inform_done" | InformResult => "inform_result"
  | Request => "request" | Response => "response"
  end.

(** An agent, as far as messages and networks see it: its class and id. *)
Record Agent : Type := { agent_cls : string; agent_id : string }.

#[global] Instance Agent_eq_dec : EqDecision Agent.
Proof. solve_decision. Defined.

(** Modelled from the spec: the fields of [Message] of the absent
    [gen_net/llegos/networks.py] (spec section 3), with the class of the
    instance kept in [cls]. *)
Record Message : Type := {
  cls : MessageKind;
  id : string;
  sender : option Agent;
  receiver : option Agent;
  method : string;
  reply_to : option string;
  metadata : dict
}.

(** Keyword arguments of [reply] and [forward]: [None] is a keyword that was
    not passed. *)
Record Overrides : Type := {
  o_sender : option Agent;
  o_receiver : option Agent;
  o_method : option string;
  o_metadata : option dict
}.

Definition or_else {A} (o : option A) (a : A) : A :=
  match o with Some x => x | None => a end.

Definition or_keep {A} (o : option A) (a : option A) : option A :=
  match o with Some x => Some x | None => a end.

Section Derive.

Variable uuid4 : World -> string.

(** Modelled from the spec: [Message.forward] of the absent
    [gen_net/llegos/networks.py]. The new message replies to [m]
    ([reply_to = m.id]), copies [sender], [receiver], [method] and
    [metadata] of [m] unless a keyword overrides them, is an instance of
    the class [forward] was called on, and passes no id, so that
    [AbstractObject.__init__] assigns one. *)
Definition forward (c : MessageKind) (m : Message) (ov : Overrides)
    (w : World) : Message * World :=
  let '(i, w') := AbstractObject_init uuid4 (class_name c) None w in
  ({| cls := c;
      id := i;
      sender := or_keep (o_sender ov) (sender m);
      receiver := or_keep (o_receiver ov) (receiver m);
      method := or_else (o_method ov) (method m);
      reply_to := Some (id m);
      metadata := or_else (o_metadata ov) (metadata m) |}, w').

End Derive.

End Networks.

Import Networks.

(* ===================================================================== *)
(** ** The message graph exercised by gen_net/test_message.py             *)
(* ===================================================================== *)

Module Messages.

(** Nodes are message ids in insertion order; an edge [(a, b)] says that the
    message [b] replies to the message [a]. *)
Record MessageGraph : Type := {
  nodes : list string;
  edges : list (string * string)
}.

Definition empty_graph : MessageGraph := {| nodes := []; edges := [] |}.

(** Modelled from the spec: one step of [message_graph] of the absent
    [gen_net/messages.py]. The message becomes a node and its [reply_to],
    when present, an edge from the id replied to. The source performs no
    validation of that id: whether or not a message carrying it has been
    seen, the link is recorded and no error is raised. *)
Definition add_message (g : MessageGraph) (m : Message) : result MessageGraph :=
  match reply_to m with
  | None => Ok {| nodes := nodes g ++ [id m]; edges := edges g |}
  | Some r =>
      Ok {| nodes := nodes g ++ [id m]; edges := edges g ++ [(r, id m)] |}
  end.

Fixpoint add_messages (g : MessageGraph) (msgs : list Message)
    : result MessageGraph :=
  match msgs with
  | [] => Ok g
  | m :: rest => let* g' := add_message g m in add_messages g' rest
  end.

(** Modelled from the spec: [message_graph] of the absent
    [gen_net/messages.py] processes its input once, in order, building the
    adjacency incrementally. *)
Definition message_graph (msgs : list Message) : result MessageGraph :=
  add_messages empty_graph msgs.

(** The messages [x] replies to, directly. *)
Definition predecessors (g : MessageGraph) (x : string) : list string :=
  map fst (List.filter (fun e => String.eqb (snd e) x) (edges g)).

(** Is [y] reached from [x] in at least one and at most [fuel] steps along
    [reply_to] edges? *)
Fixpoint ancestor (fuel : nat) (g : MessageGraph) (x y : string) : bool :=
  match fuel with
  | 0 => false
  | S n =>
      existsb (fun p => String.eqb p y || ancestor n g p y) (predecessors g x)
  end.

(** Modelled from the spec: [graph.has_predecessor(a, b)] of the absent
    [gen_net/messages.py] is true iff [b] is an ancestor of [a] along
    [reply_to] edges, direct or transitive. A path that repeats no node has
    no more edges than the graph has nodes. *)
Definition has_predecessor (g : MessageGraph) (a b : Message) : bool :=
  ancestor (length (nodes g)) g (id a) (id b).

End Messages.

Import Messages.

(* ===================================================================== *)
(** ** gen_net/llegos/fipa/contract_net.py                                *)
(* ===================================================================== *)

Module ContractNetProtocol.

(** [Participant.receivable_messages] *)
Definition Participant_receivable_messages : gset MessageKind :=
  {[ CFP; RejectProposal; AcceptProposal; Failure ]}.

(** The handlers [Participant] declares. *)
Definition Participant_handlers : list string :=
  ["cfp"; "accept_proposal"; "reject_proposal"].

(** [Initiator.receivable_messages] *)
Definition Initiator_receivable_messages : gset MessageKind :=
  {[ Propose; Refuse; InformDone; InformResult; Failure ]}.

(** The handlers [Initiator] declares. *)
Definition Initiator_handlers : list string :=
  ["propose"; "inform_done"; "inform_result"; "failure"].

(** Does a role declare a handler for the messages of class [k]? Handlers
    are named after the [method] tag of the class they receive. *)
Definition handles (handlers : list string) (k : MessageKind) : bool :=
  existsb (String.eqb (class_method k)) handlers.

Definition Link : Type := (Agent * string * Agent)%type.

Record ContractNet : Type := {
  net_id : string;
  manager : Agent;
  contractors : list Agent;
  links : list Link
}.

(** [[(manager, "contractor", c) for c in contractors]] *)
Definition contractor_links (mgr : Agent) (cs : list Agent) : list Link :=
  map (fun c => (mgr, "contractor", c)) cs.

(** The keyword arguments that reach the base class constructor, as far as
    the declared fields of [ContractNet] go; [None] is a keyword that was
    not passed. *)
Record Keywords : Type := {
  kw_manager : option Agent;
  kw_contractors : option (list Agent);
  kw_links : list Link
}.

(** The validation of the declared fields: [manager = Field()] is required,
    [contractors = Field(min_items=1)] is required and wants at least one
    item. One error reports every failing field; it is kept here under
    [contractors] whenever that field fails, under [manager] otherwise. *)
Definition validate_fields (kw : Keywords) : result (Agent * list Agent) :=
  match kw_contractors kw with
  | None => Raise (ValidationError "contractors")
  | Some l =>
      if Nat.ltb (length l) 1 then Raise (ValidationError "contractors")
      else
        match kw_manager kw with
        | None => Raise (ValidationError "manager")
        | Some m => Ok (m, l)
        end
  end.

(** What resuming an asynchronous generator gives its consumer: a yielded
    message, the end of the iteration, or an exception. *)
Inductive Outcome : Type :=
| Yielded (m : Message)
| Finished
| Failed (e : exn).

(** What the consumer sends into the generator: [None] (plain iteration),
    the [StopAsyncIteration] class, or some other value. *)
Inductive Sent : Type :=
| SendNone
| SendStopAsyncIteration
| SendValue (v : pyval).

Section Protocol.

Variable uuid4 : World -> string.

(** [ContractNet.__init__] passes [links] and [**kwargs] to the base class
    constructor and nothing else: [manager] and [contractors] are bound
    to the parameters of [__init__], so no keyword carries them. The
    validation of the declared fields therefore sees neither of the two
    required fields and raises before an id is assigned; the error is
    reported under the [contractors] field. *)
Definition ContractNet_init (mgr : Agent) (cs : list Agent) (w : World)
    : result ContractNet * World :=
  let kw :=
    {| kw_manager := None; kw_contractors := None;
       kw_links := contractor_links mgr cs |} in
  match validate_fields kw with
  | Raise e => (Raise e, w)
  | Ok (m, l) =>
      let '(i, w') := AbstractObject_init uuid4 "ContractNet" None w in
      (Ok {| net_id := i; manager := m; contractors := l;
             links := kw_links kw |}, w')
  end.

(** [[CFP.forward(message, sender=self.manager, receiver=c)
      for c in self.contractors]] *)
Fixpoint cfp_batch (mgr : Agent) (message : Message) (cs : list Agent)
    (w : World) : list Message * World :=
  match cs with
  | [] => ([], w)
  | c :: cs' =>
      let '(m, w1) :=
        forward uuid4 CFP message
          {| o_sender := Some mgr; o_receiver := Some c;
             o_method := None; o_metadata := None |} w in
      let '(ms, w2) := cfp_batch mgr message cs' w1 in
      (m :: ms, w2)
  end.

(** [propogate_all] of the absent [gen_net/llegos/asyncio.py]: an
    asynchronous iterator over the replies to a batch, advanced by
    [anext]. *)
Variable Replies : Type.
Variable propogate_all : list Message -> Replies.
Variable anext : Replies -> World -> option (Message * Replies) * World.

(** The states of the generator object [request] returns: not started,
    parked at [yield reply], or finished. *)
Inductive Generator : Type :=
| Created (net : ContractNet) (message : Message)
| Suspended (it : Replies)
| Closed.

(** Calling [request] runs none of its body. *)
Definition request (net : ContractNet) (message : Message) : Generator :=
  Created net message.

(** One turn of [async for reply in ...: yield reply]. *)
Definition pull (it : Replies) (w : World) : Outcome * Generator * World :=
  match anext it w with
  | (Some (reply, it'), w') => (Yielded reply, Suspended it', w')
  | (None, w') => (Finished, Closed, w')
  end.

(** [gen.asend(v)]; [gen.__anext__()] is [asend SendNone]. A generator that
    has not started accepts only [None]; one parked at [yield] leaves the
    loop when the value sent is [StopAsyncIteration]. *)
Definition asend (g : Generator) (v : Sent) (w : World)
    : Outcome * Generator * World :=
  match g with
  | Created net message =>
      match v with
      | SendNone =>
          let '(messages, w1) :=
            cfp_batch (manager net) message (contractors net) w in
          pull (propogate_all messages) w1
      | _ => (Failed TypeError, Created net message, w)
      end
  | Suspended it =>
      match v with
      | SendStopAsyncIteration => (Finished, Closed, w)
      | _ => pull it w
      end
  | Closed => (Finished, Closed, w)
  end.

(** A consumer that resumes the generator once per element of [script] and
    collects what is yielded. *)
Fixpoint consume (g : Generator) (w : World) (script : list Sent)
    : list Message :=
  match script with
  | [] => []
  | v :: script' =>
      match asend g v w with
      | (Yielded m, g', w') => m :: consume g' w' script'
      | (_, g', w') => consume g' w' script'
      end
  end.

End Protocol.

End ContractNetProtocol.

Import ContractNetProtocol.

(* ===================================================================== *)
(** ** gen_net/openai.py                                                  *)
(* ===================================================================== *)

Module OpenAI.

Record Choice : Type := { content : pyval; message : pyval }.

Record Completion : Type := { choices : list Choice }.

Section Parse.

(** [json.loads] *)
Variable json_loads : pyval -> result pyval.

Definition parse_completion_kwargs (completion : Completion) : result pyval :=
  let* choice := item0 (choices completion) in
  let message := message choice in
  let* call := getitem message "function_call" in
  let* arguments := getitem call "arguments" in
  json_loads arguments.

Definition parse_completion_fn_call (completion : Completion)
    (fn_name : option string) (throw_error : bool) : result (pyval * pyval) :=
  let* choice := item0 (choices completion) in
  let response := content choice in
  let* _ :=
    (if throw_error then
       let* present := contains "function_call" response in
       let* _ := py_assert present in
       match fn_name with
       | Some f =>
           let* call := getitem response "function_call" in
           let* name := getitem call "name" in
           py_assert (is_str f name)
       | None => Ok tt
       end
     else Ok tt) in
  let* call := getitem response "function_call" in
  let* name := getitem call "name" in
  let* kwargs := parse_completion_kwargs completion in
  Ok (name, kwargs).

End Parse.

(** Does the value have an entry under the key [k]? *)
Definition has_entry (v : pyval) (k : string) : bool :=
  match v with
  | VDict d => match dict_get k d with Some _ => true | None => false end
  | _ => false
  end.

End OpenAI.

Import OpenAI.

(* ===================================================================== *)
(** ** Sample data                                                        *)
(* ===================================================================== *)

Module Sample.

Definition alice : Agent := {| agent_cls := "Initiator"; agent_id := "alice" |}.
Definition bob : Agent := {| agent_cls := "Participant"; agent_id := "bob" |}.
Definition carol : Agent := {| agent_cls := "Participant"; agent_id := "carol" |}.
Definition dave : Agent := {| agent_cls := "Participant"; agent_id := "dave" |}.

Definition req : Message :=
  {| cls := Request; id := "req-1"; sender := None; receiver := None;
     method := "request"; reply_to := None;
     metadata := [("foo", VStr "bar")] |}.

(** A world in which [req] and the three agents exist. *)
Definition w0 : World :=
  {| entities := [("Initiator", "alice"); ("Participant", "bob");
                  ("Participant", "carol"); ("Participant", "dave");
                  ("Request", "req-1")] |}.

Definition net0 : ContractNet :=
  {| net_id := "net"; manager := alice; contractors := [bob; carol; dave];
     links := [(alice, "contractor", bob); (alice, "contractor", carol);
               (alice, "contractor", dave)] |}.

(** A stand-in for [propogate_all]: the replies are the batch itself. *)
Definition echo_all (batch : list Message) : list Message := batch.

Definition echo_anext (it : list Message) (w : World)
    : option (Message * list Message) * World :=
  match it with
  | [] => (None, w)
  | m :: it' => (Some (m, it'), w)
  end.

(** The three messages of [test_message_graph]. *)
Definition m1 : Message :=
  {| cls := Request; id := "m1"; sender := Some alice; receiver := None;
     method := "chat"; reply_to := None; metadata := [] |}.
Definition m2 : Message :=
  {| cls := Response; id := "m2"; sender := Some bob; receiver := None;
     method := "chat"; reply_to := Some "m1"; metadata := [] |}.
Definition m3 : Message :=
  {| cls := Response; id := "m3"; sender := Some alice; receiver := None;
     method := "chat"; reply_to := Some "m2"; metadata := [] |}.

(** A reply to a message that is not in any collection below. *)
Definition orphan : Message :=
  {| cls := Response; id := "m9"; sender := Some bob; receiver := None;
     method := "chat"; reply_to := Some "m7"; metadata := [] |}.

(** A completion whose first choice carries plain text. *)
Definition text_completion : Completion :=
  {| choices := [ {| content := VDict [("role", VStr "assistant")];
                     message := VDict [("content", VStr "hello")] |} ] |}.

Definition no_json (v : pyval) : result pyval := Raise JSONDecodeError.

End Sample.

(* ===================================================================== *)
(** ** More of contract_net.py and openai.py                              *)
(* ===================================================================== *)

Module Handlers.

(** The message classes a [Participant] handler is annotated to answer
    with: [cfp] returns [Union[Propose, Refuse]], [accept_proposal] returns
    [Union[InformDone, InformResult, Failure]], [reject_proposal] returns
    [None]. *)
Definition Participant_returns (handler : string) : list MessageKind :=
  if String.eqb handler "cfp" then [Propose; Refuse]
  else if String.eqb handler "accept_proposal"
       then [InformDone; InformResult; Failure]
       else [].

(** [Initiator.propose] is annotated to yield
    [Union[AcceptProposal, RejectProposal]]; [inform_done], [inform_result]
    and [failure] are annotated [None]. *)
Definition Initiator_returns (handler : string) : list MessageKind :=
  if String.eqb handler "propose" then [AcceptProposal; RejectProposal]
  else [].

End Handlers.

Import Handlers.

Module Relay.

(** How many further replies a consumer asks for with the values it sends
    back: every value but [StopAsyncIteration] resumes the loop once. *)
Fixpoint resumes (answers : list Sent) : nat :=
  match answers with
  | [] => 0
  | SendStopAsyncIteration :: _ => 0
  | _ :: rest => S (resumes rest)
  end.

Section Replies.

Variable Replies : Type.
Variable anext : Replies -> World -> option (Message * Replies) * World.

(** The first [n] replies of an iterator, fewer if it ends before. *)
Fixpoint take_replies (n : nat) (it : Replies) (w : World) : list Message :=
  match n with
  | 0 => []
  | S n' =>
      match anext it w with
      | (Some (reply, it'), w') => reply :: take_replies n' it' w'
      | (None, _) => []
      end
  end.

End Replies.

End Relay.

Import Relay.

Module OpenAICalls.

(** The operand of [**] in a call: a value, or the pair that
    [parse_completion_fn_call] returns. *)
Inductive Operand : Type :=
| OfValue (v : pyval)
| OfTuple (a b : pyval).

(** [f( **x )]: the operand must be a mapping, anything else is a
    [TypeError]. *)
Definition as_kwargs (x : Operand) : result dict :=
  match x with
  | OfValue (VDict d) => Ok d
  | _ => Raise TypeError
  end.

Section Calls.

Variable json_loads : pyval -> result pyval.
Variable T : Type.

(** [parse_model]: [model( **parse_completion_kwargs(completion) )] *)
Definition parse_model (model : dict -> result T) (completion : Completion)
    : result T :=
  let* kwargs := parse_completion_kwargs json_loads completion in
  let* mapping := as_kwargs (OfValue kwargs) in
  model mapping.

(** [call_agent_fn]: the value of [node.__name__] is [node_name], and
    [receive] is [node.receive]. *)
Definition call_agent_fn (completion : Completion) (node_name : string)
    (receive : dict -> result T) (throw_error : bool) : result T :=
  let* kwargs :=
    parse_completion_fn_call json_loads completion (Some node_name) throw_error in
  let* mapping := as_kwargs (OfTuple (fst kwargs) (snd kwargs)) in
  receive mapping.

(** [acall_agent_fn], awaited: the same body with [node.areceive]. *)
Definition acall_agent_fn (completion : Completion) (node_name : string)
    (areceive : dict -> result T) (throw_error : bool) : result T :=
  let* kwargs :=
    parse_completion_fn_call json_loads completion (Some node_name) throw_error in
  let* mapping := as_kwargs (OfTuple (fst kwargs) (snd kwargs)) in
  areceive mapping.

End Calls.

End OpenAICalls.

Import OpenAICalls.

Module Fixtures.

(** A completion that calls the function [bid]: the name sits in the
    content of the first choice, the arguments in its message. *)
Definition call_completion : Completion :=
  {| choices :=
       [ {| content :=
              VDict [("function_call", VDict [("name", VStr "bid")])];
            message :=
              VDict [("function_call",
                      VDict [("name", VStr "bid");
                             ("arguments", VStr "{price: 3}")])] |} ] |}.

(** A completion whose content names the function but whose message
    carries no call. *)
Definition split_completion : Completion :=
  {| choices :=
       [ {| content :=
              VDict [("function_call", VDict [("name", VStr "bid")])];
            message := VDict [("content", VStr "hello")] |} ] |}.

(** A stand-in for [json.loads] that decodes every document to one
    object. *)
Definition json_price (v : pyval) : result pyval :=
  match v with
  | VStr _ => Ok (VDict [("price", VInt 3)])
  | _ => Raise TypeError
  end.

(** A stand-in for [json.loads] that decodes every document to a list. *)
Definition json_list (v : pyval) : result pyval :=
  match v with
  | VStr _ => Ok (VList [VInt 3])
  | _ => Raise TypeError
  end.

(** A model, or [receive], that hands back the keywords it is called
    with. *)
Definition keep_kwargs (d : dict) : result dict := Ok d.

End Fixtures.

(* ===================================================================== *)
(** * Properties                                                          *)
(* ===================================================================== *)

(** ** Strings *)

Lemma append_cons (x : ascii) (a b : string) :
  String x a +:+ b = String x (a +:+ b).
Proof. reflexivity. Qed.

Lemma length_append (a b : string) :
  String.length (a +:+ b) = String.length a + String.length b.
Proof.
  induction a as [|x a IH]; [reflexivity |].
  rewrite append_cons. simpl. now rewrite IH.
Qed.

Lemma append_assoc (a b c : string) : (a +:+ b) +:+ c = a +:+ b +:+ c.
Proof.
  induction a as [|x a IH]; [reflexivity |].
  rewrite !append_cons. now f_equal.
Qed.

Lemma append_colon_nonempty (a b : string) : a +:+ ":" +:+ b <> "".
Proof. destruct a; discriminate. Qed.

Lemma length_zeros (n : nat) : String.length (zeros n) = n.
Proof. induction n as [|n IH]; simpl; [reflexivity | now rewrite IH]. Qed.

Lemma longest_ge (l : list string) (s : string) :
  In s l -> String.length s <= longest l.
Proof.
  induction l as [|x l IH]; simpl; [tauto |].
  intros [-> | Hin]; [lia | specialize (IH Hin); lia].
Qed.

(** The model's [uuid4_long] honours the contract of [uuid4]. *)
Lemma uuid4_long_never_reissued : never_reissued uuid4_long.
Proof.
  intros w i p Hin Heq.
  apply longest_ge in Hin.
  apply (f_equal String.length) in Heq.
  rewrite length_append in Heq. unfold uuid4_long in Heq.
  rewrite length_zeros in Heq. lia.
Qed.

(** ** Identity of entities (abstract.py) *)

Lemma used_register (c i : string) (w : World) :
  used (register c i w) = used w ++ [i].
Proof. unfold used, register; simpl. now rewrite map_app. Qed.

Section Identity.

Variable uuid4 : World -> string.
Hypothesis uuid4_new : never_reissued uuid4.

Lemma generated_id_new (c : string) (w : World) :
  ~ In (c +:+ ":" +:+ uuid4 w) (used w).
Proof.
  intros Hin. apply (uuid4_new w _ (c +:+ ":") Hin).
  symmetry. apply append_assoc.
Qed.

(** C9. An entity constructed without an id, or with the empty id, gets a
    non-empty id that no entity constructed so far carries; one constructed
    with a non-empty id keeps it. *)
Theorem AbstractObject_init_id (c : string) (id_arg : option string) (w : World) :
  let i := fst (AbstractObject_init uuid4 c id_arg w) in
  (id_arg = None \/ id_arg = Some "" -> i <> "" /\ ~ In i (used w)) /\
  (forall j : string, id_arg = Some j -> j <> "" -> i = j).
Proof.
  unfold AbstractObject_init; simpl. split.
  - intros [-> | ->]; simpl;
      (split; [apply append_colon_nonempty | apply generated_id_new]).
  - intros j -> Hj. apply String.eqb_neq in Hj. now rewrite Hj.
Qed.

(** C6. Forwarding a message that lives in the world keeps its [method] and
    its [metadata] unless a keyword overrides them, and the forwarded
    message carries an id different from the original's. *)
Theorem forward_preserves (c : MessageKind) (m : Message) (ov : Overrides)
    (w : World) :
  In (id m) (used w) ->
  let m' := fst (forward uuid4 c m ov w) in
  (o_method ov = None -> method m' = method m) /\
  (o_metadata ov = None -> metadata m' = metadata m) /\
  id m' <> id m.
Proof.
  intros Hin. unfold forward, AbstractObject_init; simpl.
  repeat split.
  - now intros ->.
  - now intros ->.
  - intros Heq. rewrite <- Heq in Hin. now apply generated_id_new in Hin.
Qed.

End Identity.

Lemma AbstractObject_init_id_witness :
  (fst (AbstractObject_init uuid4_long "CFP" None Sample.w0) <> "" /\
   ~ In (fst (AbstractObject_init uuid4_long "CFP" None Sample.w0))
        (used Sample.w0)) /\
  fst (AbstractObject_init uuid4_long "CFP" (Some "req-1") Sample.w0) = "req-1".
Proof.
  pose proof (AbstractObject_init_id uuid4_long uuid4_long_never_reissued
                "CFP" None Sample.w0) as [Hnew _].
  pose proof (AbstractObject_init_id uuid4_long uuid4_long_never_reissued
                "CFP" (Some "req-1") Sample.w0) as [_ Hkept].
  split.
  - apply Hnew. left. reflexivity.
  - apply (Hkept "req-1"); [reflexivity | discriminate].
Defined.

Lemma forward_preserves_witness :
  let m' := fst (forward uuid4_long CFP Sample.req
                   {| o_sender := Some Sample.alice; o_receiver := Some Sample.bob;
                      o_method := None; o_metadata := None |} Sample.w0) in
  method m' = "request" /\ metadata m' = [("foo", VStr "bar")] /\ id m' <> "req-1".
Proof.
  pose proof (forward_preserves uuid4_long uuid4_long_never_reissued CFP
                Sample.req
                {| o_sender := Some Sample.alice; o_receiver := Some Sample.bob;
                   o_method := None; o_metadata := None |} Sample.w0) as H.
  destruct H as (Hm & Hd & Hi).
  - simpl. auto 10.
  - split; [apply Hm; reflexivity | split; [apply Hd; reflexivity | exact Hi]].
Defined.

(** The forwarded sample request: a CFP from alice to bob that replies to
    the request and keeps its method tag and metadata. *)
Example forward_sample :
  fst (forward uuid4_long CFP Sample.req
         {| o_sender := Some Sample.alice; o_receiver := Some Sample.bob;
            o_method := None; o_metadata := None |} Sample.w0)
  = {| cls := CFP; id := "CFP:000000"; sender := Some Sample.alice;
       receiver := Some Sample.bob; method := "request";
       reply_to := Some "req-1"; metadata := [("foo", VStr "bar")] |}.
Proof. reflexivity. Qed.

(** ** The contract net (contract_net.py) *)

(** C5. Constructing a contract net with no contractor raises the
    validation error of the [contractors] field and leaves the world as it
    was: no entity, in particular no message, has been built. *)
Theorem ContractNet_init_empty (uuid4 : World -> string) (mgr : Agent)
    (w : World) :
  ContractNet_init uuid4 mgr [] w = (Raise (ValidationError "contractors"), w).
Proof. reflexivity. Qed.

Section Request.

Variable uuid4 : World -> string.

Lemma cfp_batch_spec (mgr : Agent) (message : Message) (cs : list Agent)
    (w : World) :
  let messages := fst (cfp_batch uuid4 mgr message cs w) in
  length messages = length cs /\
  map receiver messages = map Some cs /\
  Forall (fun m => cls m = CFP /\ sender m = Some mgr /\
                   reply_to m = Some (id message)) messages.
Proof.
  revert w. induction cs as [|c cs IH]; intros w; simpl.
  - repeat split. constructor.
  - destruct (cfp_batch uuid4 mgr message cs
                (register "CFP" ("CFP" +:+ ":" +:+ uuid4 w) w)) as [ms w2] eqn:E.
    specialize (IH (register "CFP" ("CFP" +:+ ":" +:+ uuid4 w) w)).
    rewrite E in IH. simpl in IH. destruct IH as (Hlen & Hrcv & Hall).
    simpl. repeat split.
    + now rewrite Hlen.
    + now rewrite Hrcv.
    + constructor; [repeat split | exact Hall].
Qed.

Variable Replies : Type.
Variable propogate_all : list Message -> Replies.
Variable anext : Replies -> World -> option (Message * Replies) * World.

(** C1. The first resumption of [request(message)] on a net with N
    contractors builds a batch of exactly N messages before it asks
    [propogate_all] for any reply: the i-th is a CFP from the manager to the
    i-th contractor, and each replies to [message]. *)
Theorem request_builds_cfps (net : ContractNet) (message : Message) (w : World) :
  exists (messages : list Message) (w1 : World),
    cfp_batch uuid4 (manager net) message (contractors net) w = (messages, w1) /\
    asend uuid4 Replies propogate_all anext (request Replies net message) SendNone w
      = pull Replies anext (propogate_all messages) w1 /\
    length messages = length (contractors net) /\
    map receiver messages = map Some (contractors net) /\
    Forall (fun m => cls m = CFP /\ sender m = Some (manager net) /\
                     reply_to m = Some (id message)) messages.
Proof.
  pose proof (cfp_batch_spec (manager net) message (contractors net) w) as H.
  destruct (cfp_batch uuid4 (manager net) message (contractors net) w)
    as [messages w1] eqn:E.
  exists messages, w1. simpl in H. destruct H as (Hlen & Hrcv & Hall).
  repeat split; try assumption.
  unfold request, asend. now rewrite E.
Qed.

Lemma consume_closed (w : World) (script : list Sent) :
  consume uuid4 Replies propogate_all anext (Closed Replies) w script = [].
Proof. revert w. induction script as [|v script IH]; intros w; simpl; auto. Qed.

Lemma consume_suspended (script : list Sent) :
  forall (it : Replies) (w : World) (k : nat),
    script !! k = Some SendStopAsyncIteration ->
    length (consume uuid4 Replies propogate_all anext (Suspended Replies it) w script)
      <= k.
Proof.
  induction script as [|v script IH]; intros it w k Hk; [discriminate |].
  destruct k as [|k]; simpl in Hk.
  - injection Hk as ->. simpl. rewrite consume_closed. simpl. lia.
  - simpl. destruct v; unfold pull;
      try (destruct (anext it w) as [[[reply it']|] w'];
           [ simpl; specialize (IH it' w' k Hk); lia
           | rewrite consume_closed; simpl; lia ]).
    rewrite consume_closed. simpl. lia.
Qed.

(** C2. Whatever the replies are and whatever else the consumer sends: if
    the value it sends back after the k-th yielded message is
    [StopAsyncIteration], the request yields at most k messages. The script
    starts the generator with [None]; its entry number k (counted from 1)
    is what the consumer sends after the k-th message. *)
Theorem request_stops_after (net : ContractNet) (message : Message) (w : World)
    (answers : list Sent) (k : nat) :
  1 <= k ->
  answers !! (k - 1) = Some SendStopAsyncIteration ->
  length (consume uuid4 Replies propogate_all anext (request Replies net message)
            w (SendNone :: answers)) <= k.
Proof.
  intros Hk Hstop. unfold request. simpl.
  destruct (cfp_batch uuid4 (manager net) message (contractors net) w)
    as [messages w1].
  unfold pull. destruct (anext (propogate_all messages) w1) as [[[reply it']|] w'].
  - simpl. pose proof (consume_suspended answers it' w' (k - 1) Hstop). lia.
  - rewrite consume_closed. simpl. lia.
Qed.

End Request.

Lemma request_stops_after_witness :
  length (consume uuid4_long (list Message) Sample.echo_all Sample.echo_anext
            (request (list Message) Sample.net0 Sample.req) Sample.w0
            [SendNone; SendNone; SendStopAsyncIteration; SendNone]) <= 2.
Proof.
  apply (request_stops_after uuid4_long (list Message) Sample.echo_all
           Sample.echo_anext Sample.net0 Sample.req Sample.w0
           [SendNone; SendStopAsyncIteration; SendNone] 2).
  - lia.
  - reflexivity.
Defined.

(** Three contractors, a consumer that stops after the second message:
    the third CFP is never yielded. *)
Example consume_sample :
  map receiver
    (consume uuid4_long (list Message) Sample.echo_all Sample.echo_anext
       (request (list Message) Sample.net0 Sample.req) Sample.w0
       [SendNone; SendNone; SendStopAsyncIteration; SendNone])
  = [Some Sample.bob; Some Sample.carol].
Proof. reflexivity. Qed.

Example consume_all_sample :
  map receiver
    (consume uuid4_long (list Message) Sample.echo_all Sample.echo_anext
       (request (list Message) Sample.net0 Sample.req) Sample.w0
       [SendNone; SendNone; SendNone; SendNone])
  = [Some Sample.bob; Some Sample.carol; Some Sample.dave].
Proof. reflexivity. Qed.

(** ** Receivable messages (contract_net.py) *)

(** The receivable sets are not the handler sets: a participant is declared
    to receive [Failure], for which it has no handler. *)
Lemma receivable_not_handlers :
  ~ (Participant_receivable_messages = {[ CFP; AcceptProposal; RejectProposal ]} /\
     Initiator_receivable_messages
       = {[ Propose; InformDone; InformResult; Failure ]}).
Proof.
  intros [HP _].
  assert (Hin : Failure ∈ Participant_receivable_messages)
    by (unfold Participant_receivable_messages; set_solver).
  rewrite HP in Hin. set_solver.
Qed.

(** C4, as the code has it. A participant receives exactly CFP,
    AcceptProposal, RejectProposal and Failure; an initiator receives
    exactly Propose, Refuse, InformDone, InformResult and Failure. Each set
    holds every class the role declares a handler for, and one class more
    that it declares none for: Failure, respectively Refuse. *)
Theorem receivable_messages_exact :
  Participant_receivable_messages
    = {[ CFP; AcceptProposal; RejectProposal; Failure ]} /\
  Initiator_receivable_messages
    = {[ Propose; Refuse; InformDone; InformResult; Failure ]} /\
  (forall k : MessageKind,
      k ∈ Participant_receivable_messages <->
      handles Participant_handlers k = true \/ k = Failure) /\
  (forall k : MessageKind,
      k ∈ Initiator_receivable_messages <->
      handles Initiator_handlers k = true \/ k = Refuse) /\
  handles Participant_handlers Failure = false /\
  handles Initiator_handlers Refuse = false.
Proof.
  unfold Participant_receivable_messages, Initiator_receivable_messages.
  split; [set_solver |]. split; [set_solver |].
  split; [| split; [| split; reflexivity]].
  - intros k. rewrite !elem_of_union, !elem_of_singleton.
    destruct k; simpl; split; intros H; intuition (auto; discriminate).
  - intros k. rewrite !elem_of_union, !elem_of_singleton.
    destruct k; simpl; split; intros H; intuition (auto; discriminate).
Qed.

(** ** The message graph (test_message.py) *)

(** What one insertion does to the graph. *)
Lemma add_message_Ok (g g' : MessageGraph) (m : Message) :
  add_message g m = Ok g' ->
  nodes g' = nodes g ++ [id m] /\
  (forall e, In e (edges g) -> In e (edges g')) /\
  (forall r, reply_to m = Some r -> In (r, id m) (edges g')).
Proof.
  unfold add_message. destruct (reply_to m) as [r|]; intros [= <-]; simpl.
  - split; [reflexivity | split].
    + intros e He. apply in_or_app. now left.
    + intros r' [= <-]. apply in_or_app. right. now left.
  - split; [reflexivity | split]; [auto | discriminate].
Qed.



Lemma add_messages_Ok (msgs : list Message) :
  forall g g' : MessageGraph,
    add_messages g msgs = Ok g' ->
    nodes g' = nodes g ++ map id msgs /\
    (forall e, In e (edges g) -> In e (edges g')) /\
    (forall m r, In m msgs -> reply_to m = Some r -> In (r, id m) (edges g')).
Proof.
  induction msgs as [|m msgs IH]; intros g g' H; simpl in H.
  - injection H as <-. rewrite app_nil_r. repeat split; auto; contradiction.
  - destruct (add_message g m) as [g1|e] eqn:E1; [| discriminate]. simpl in H.
    apply add_message_Ok in E1. destruct E1 as (Hn1 & He1 & Hr1).
    apply IH in H. destruct H as (Hn & He & Hr).
    split; [| split].
    + rewrite Hn, Hn1. simpl. now rewrite <- app_assoc.
    + auto.
    + intros m0 r [<- | Hin] Hrep.
      * apply He. now apply Hr1.
      * eapply Hr; eauto.
Qed.

Lemma predecessors_In (g : MessageGraph) (x p : string) :
  In (p, x) (edges g) -> In p (predecessors g x).
Proof.
  intros Hin. unfold predecessors.
  apply (in_map fst _ (p, x)). apply filter_In. split; [exact Hin |].
  simpl. apply String.eqb_refl.
Qed.

Lemma ancestor_direct (n : nat) (g : MessageGraph) (x y : string) :
  In (y, x) (edges g) -> ancestor (S n) g x y = true.
Proof.
  intros Hin. simpl. apply existsb_exists. exists y.
  split; [now apply predecessors_In |]. now rewrite String.eqb_refl.
Qed.

Lemma ancestor_step (n : nat) (g : MessageGraph) (x p y : string) :
  In (p, x) (edges g) -> ancestor n g p y = true -> ancestor (S n) g x y = true.
Proof.
  intros Hin Hp. simpl. apply existsb_exists. exists p.
  split; [now apply predecessors_In |]. rewrite Hp. apply orb_true_r.
Qed.

(** The run of [test_message_graph]. *)
Example message_graph_sample :
  message_graph [Sample.m1; Sample.m2; Sample.m3]
  = Ok {| nodes := ["m1"; "m2"; "m3"]; edges := [("m1", "m2"); ("m2", "m3")] |}.
Proof. reflexivity. Qed.

(** Replies point backwards only: the original is no successor of its
    reply. *)
Example has_predecessor_backwards :
  has_predecessor
    {| nodes := ["m1"; "m2"; "m3"]; edges := [("m1", "m2"); ("m2", "m3")] |}
    Sample.m1 Sample.m3 = false.
Proof. reflexivity. Qed.

(** C3. In the graph built from a collection, a message that replies to
    [m1] has [m1] as predecessor, and so has a message that replies to that
    reply. *)
Theorem has_predecessor_reply_chain (msgs : list Message) (g : MessageGraph)
    (m1 m2 m3 : Message) :
  message_graph msgs = Ok g ->
  In m1 msgs -> In m2 msgs -> In m3 msgs ->
  reply_to m2 = Some (id m1) ->
  has_predecessor g m2 m1 = true /\
  (reply_to m3 = Some (id m2) -> has_predecessor g m3 m1 = true).
Proof.
  intros Hg _ H2 H3 R2. unfold message_graph in Hg.
  apply add_messages_Ok in Hg. destruct Hg as (Hn & _ & Hr). simpl in Hn.
  pose proof (Hr m2 _ H2 R2) as E21.
  unfold has_predecessor. rewrite Hn, length_map.
  destruct msgs as [|x [|y rest]]; [contradiction | |]; simpl length.
  - (* one message: it is its own reply *)
    destruct H2 as [<- | []]. destruct H3 as [<- | []].
    split; [now apply ancestor_direct |].
    intros _. now apply ancestor_direct.
  - split; [now apply ancestor_direct |].
    intros R3. pose proof (Hr m3 _ H3 R3) as E32.
    apply (ancestor_step _ g _ (id m2)); [exact E32 |].
    now apply ancestor_direct.
Qed.

Lemma has_predecessor_reply_chain_witness :
  has_predecessor
    {| nodes := ["m1"; "m2"; "m3"]; edges := [("m1", "m2"); ("m2", "m3")] |}
    Sample.m2 Sample.m1 = true /\
  has_predecessor
    {| nodes := ["m1"; "m2"; "m3"]; edges := [("m1", "m2"); ("m2", "m3")] |}
    Sample.m3 Sample.m1 = true.
Proof.
  pose proof (has_predecessor_reply_chain
                [Sample.m1; Sample.m2; Sample.m3]
                {| nodes := ["m1"; "m2"; "m3"];
                   edges := [("m1", "m2"); ("m2", "m3")] |}
                Sample.m1 Sample.m2 Sample.m3) as H.
  destruct H as [Hd Ht].
  - reflexivity.
  - simpl; auto.
  - simpl; auto.
  - simpl; auto.
  - reflexivity.
  - split; [exact Hd | apply Ht; reflexivity].
Defined.



(** The graph of the collection with the dangling reply. *)
Example message_graph_dangling_sample :
  message_graph [Sample.m1; Sample.m2; Sample.orphan; Sample.m3]
  = Ok {| nodes := ["m1"; "m2"; "m9"; "m3"];
          edges := [("m1", "m2"); ("m7", "m9"); ("m2", "m3")] |}.
Proof. reflexivity. Qed.

(** ** Completion parsing (openai.py) *)

(** With [throw_error=True] the same completion fails the assertion. *)
Example parse_completion_fn_call_assert :
  parse_completion_fn_call Sample.no_json Sample.text_completion None true
  = Raise AssertionError.
Proof. reflexivity. Qed.

(** C10. When the content of the first choice has no ["function_call"]
    entry, [parse_completion_fn_call] raises whatever [throw_error] is; with
    [throw_error=False] the error is the one of the subscript
    [response["function_call"]]: a [KeyError] on a dictionary, a
    [TypeError] on any other value. *)
Theorem parse_completion_fn_call_no_entry (json_loads : pyval -> result pyval)
    (completion : Completion) (choice : Choice) (rest : list Choice)
    (fn_name : option string) :
  choices completion = choice :: rest ->
  has_entry (content choice) "function_call" = false ->
  parse_completion_fn_call json_loads completion fn_name false
    = Raise (match content choice with
             | VDict _ => KeyError "function_call"
             | _ => TypeError
             end) /\
  forall throw_error : bool,
    raises (parse_completion_fn_call json_loads completion fn_name throw_error)
    = true.
Proof.
  intros Hc Hno. unfold parse_completion_fn_call. rewrite Hc. simpl.
  unfold has_entry in Hno.
  destruct (content choice) as [| b | z | s | l | d]; simpl.
  all: try (split; [reflexivity |]; intros [|]; simpl; try reflexivity).
  - destruct (substringb "function_call" s); simpl; [| reflexivity].
    destruct fn_name; reflexivity.
  - destruct (existsb (is_str "function_call") l); simpl; [| reflexivity].
    destruct fn_name; reflexivity.
  - destruct (dict_get "function_call" d); [discriminate |].
    split; [reflexivity |]. intros [|]; reflexivity.
Qed.

Lemma parse_completion_fn_call_no_entry_witness :
  parse_completion_fn_call Sample.no_json Sample.text_completion None false
  = Raise (KeyError "function_call").
Proof.
  apply (parse_completion_fn_call_no_entry Sample.no_json Sample.text_completion
           {| content := VDict [("role", VStr "assistant")];
              message := VDict [("content", VStr "hello")] |} [] None).
  - reflexivity.
  - reflexivity.
Defined.

(* ===================================================================== *)
(** * Further properties of the code                                      *)
(* ===================================================================== *)

(** ** Constructing and running a contract net *)



Section Running.

Variable uuid4 : World -> string.



Variable Replies : Type.
Variable propogate_all : list Message -> Replies.
Variable anext : Replies -> World -> option (Message * Replies) * World.

Lemma consume_suspended_exact (answers : list Sent) :
  forall (it : Replies) (w : World),
    consume uuid4 Replies propogate_all anext (Suspended Replies it) w answers
    = take_replies Replies anext (resumes answers) it w.
Proof.
  induction answers as [|v answers IH]; intros it w; [reflexivity |].
  destruct v; simpl; unfold pull;
    try (destruct (anext it w) as [[[reply it']|] w']; simpl;
         [ now rewrite IH | apply consume_closed ]).
  apply consume_closed.
Qed.

(** X3. A request hands on the replies of [propogate_all] unchanged and in
    order: the consumer receives exactly the first reply and one more for
    every value it sends back before its first [StopAsyncIteration] (all
    of them, if the replies end earlier), whatever it sends afterwards. *)
Theorem request_relays (net : ContractNet) (message : Message) (w : World)
    (answers : list Sent) :
  consume uuid4 Replies propogate_all anext (request Replies net message) w
    (SendNone :: answers)
  = take_replies Replies anext (S (resumes answers))
      (propogate_all
         (fst (cfp_batch uuid4 (manager net) message (contractors net) w)))
      (snd (cfp_batch uuid4 (manager net) message (contractors net) w)).
Proof.
  unfold request. simpl.
  destruct (cfp_batch uuid4 (manager net) message (contractors net) w)
    as [messages w1]. simpl.
  unfold pull. destruct (anext (propogate_all messages) w1) as [[[reply it']|] w'].
  - simpl. now rewrite consume_suspended_exact.
  - apply consume_closed.
Qed.

Hypothesis uuid4_new : never_reissued uuid4.

Lemma cfp_batch_ids (mgr : Agent) (message : Message) (cs : list Agent) :
  forall w : World,
    let messages := fst (cfp_batch uuid4 mgr message cs w) in
    let w1 := snd (cfp_batch uuid4 mgr message cs w) in
    used w1 = used w ++ map id messages /\
    List.NoDup (map id messages) /\
    (forall i, In i (map id messages) -> ~ In i (used w)).
Proof.
  induction cs as [|c cs IH]; intros w; simpl.
  - rewrite app_nil_r. repeat split; [constructor | contradiction].
  - set (i := "CFP" +:+ ":" +:+ uuid4 w).
    specialize (IH (register "CFP" i w)).
    destruct (cfp_batch uuid4 mgr message cs (register "CFP" i w)) as [ms w2].
    simpl in *. destruct IH as (Hused & Hnd & Hnew).
    rewrite used_register in Hused, Hnew.
    split; [| split].
    + rewrite Hused, <- app_assoc. reflexivity.
    + constructor; [| exact Hnd].
      intros Hin. apply (Hnew i Hin). apply in_or_app. right. now left.
    + intros j [<- | Hj].
      * apply (generated_id_new uuid4 uuid4_new).
      * intros Hw. apply (Hnew j Hj). apply in_or_app. now left.
Qed.

(** X4. The CFPs of one request carry pairwise different ids, none of which
    was in use before, and the world grows by exactly these ids: building
    the batch constructs N entities and nothing else. *)
Theorem request_cfp_ids (net : ContractNet) (message : Message) (w : World) :
  let messages :=
    fst (cfp_batch uuid4 (manager net) message (contractors net) w) in
  let w1 := snd (cfp_batch uuid4 (manager net) message (contractors net) w) in
  List.NoDup (map id messages) /\
  (forall m, In m messages -> ~ In (id m) (used w)) /\
  used w1 = used w ++ map id messages.
Proof.
  destruct (cfp_batch_ids (manager net) message (contractors net) w)
    as (Hused & Hnd & Hnew).
  split; [exact Hnd | split; [| exact Hused]].
  intros m Hm. apply Hnew. now apply in_map.
Qed.

End Running.

(** The routes of the sample request and the links of its net. *)
Example request_follows_links_sample :
  map (fun m => (sender m, receiver m))
      (fst (cfp_batch uuid4_long Sample.alice Sample.req
              [Sample.bob; Sample.carol] Sample.w0))
  = [(Some Sample.alice, Some Sample.bob); (Some Sample.alice, Some Sample.carol)].
Proof. reflexivity. Qed.

Lemma request_cfp_ids_witness :
  List.NoDup
    (map id (fst (cfp_batch uuid4_long (manager Sample.net0) Sample.req
                    (contractors Sample.net0) Sample.w0))) /\
  (forall m,
      In m (fst (cfp_batch uuid4_long (manager Sample.net0) Sample.req
                   (contractors Sample.net0) Sample.w0)) ->
      ~ In (id m) (used Sample.w0)) /\
  used (snd (cfp_batch uuid4_long (manager Sample.net0) Sample.req
               (contractors Sample.net0) Sample.w0))
  = used Sample.w0
    ++ map id (fst (cfp_batch uuid4_long (manager Sample.net0) Sample.req
                      (contractors Sample.net0) Sample.w0)).
Proof.
  exact (request_cfp_ids uuid4_long uuid4_long_never_reissued
           Sample.net0 Sample.req Sample.w0).
Defined.

(** The ids of the three CFPs of the sample request. *)
Example request_cfp_ids_sample :
  map id (fst (cfp_batch uuid4_long (manager Sample.net0) Sample.req
                 (contractors Sample.net0) Sample.w0))
  = ["CFP:000000"; "CFP:00000000000"; "CFP:0000000000000000"].
Proof. reflexivity. Qed.

(** ** Roles and message classes *)

(** X5. The protocol is closed under the declared answers: whatever class a
    participant's handler is annotated to return, an initiator receives,
    and whatever class an initiator's handler is annotated to yield, a
    participant receives. *)
Theorem declared_answers_receivable (handler : string) (k : MessageKind) :
  (In handler Participant_handlers -> In k (Participant_returns handler) ->
   k ∈ Initiator_receivable_messages) /\
  (In handler Initiator_handlers -> In k (Initiator_returns handler) ->
   k ∈ Participant_receivable_messages).
Proof.
  unfold Participant_returns, Initiator_returns,
    Participant_receivable_messages, Initiator_receivable_messages.
  split; intros _ Hk.
  - destruct (String.eqb handler "cfp");
      [| destruct (String.eqb handler "accept_proposal")];
      simpl in Hk; intuition (subst; set_solver).
  - destruct (String.eqb handler "propose");
      simpl in Hk; intuition (subst; set_solver).
Qed.

(** X6. The method tags tell the message classes apart, and every handler
    a role declares is named after the tag of a class that the role
    receives. *)
Theorem handlers_named_after_classes :
  (forall k1 k2 : MessageKind, class_method k1 = class_method k2 -> k1 = k2) /\
  (forall h : string, In h Participant_handlers ->
     exists k, class_method k = h /\ k ∈ Participant_receivable_messages) /\
  (forall h : string, In h Initiator_handlers ->
     exists k, class_method k = h /\ k ∈ Initiator_receivable_messages).
Proof.
  split; [| split].
  - intros k1 k2 H. destruct k1, k2; try reflexivity; discriminate H.
  - unfold Participant_receivable_messages. simpl.
    intros h [<- | [<- | [<- | []]]];
      [exists CFP | exists AcceptProposal | exists RejectProposal];
      (split; [reflexivity | set_solver]).
  - unfold Initiator_receivable_messages. simpl.
    intros h [<- | [<- | [<- | [<- | []]]]];
      [exists Propose | exists InformDone | exists InformResult | exists Failure];
      (split; [reflexivity | set_solver]).
Qed.

(** ** Ids supplied by the caller *)

(** X7. The constructor does not check a supplied id against the ids in
    use: constructing an entity under an id that is taken succeeds, keeps
    the id, and leaves the world with that id twice. *)
Theorem AbstractObject_init_duplicate (uuid4 : World -> string) (c i : string)
    (w : World) :
  i <> "" ->
  In i (used w) ->
  fst (AbstractObject_init uuid4 c (Some i) w) = i /\
  ~ List.NoDup (used (snd (AbstractObject_init uuid4 c (Some i) w))).
Proof.
  intros Hne Hin. unfold AbstractObject_init.
  apply String.eqb_neq in Hne. rewrite Hne. simpl. split; [reflexivity |].
  rewrite used_register. intros Hnd.
  apply List.NoDup_remove_2 in Hnd. apply Hnd. rewrite app_nil_r. exact Hin.
Qed.

Lemma AbstractObject_init_duplicate_witness :
  fst (AbstractObject_init uuid4_long "Request" (Some "req-1") Sample.w0) = "req-1" /\
  ~ List.NoDup
      (used (snd (AbstractObject_init uuid4_long "Request" (Some "req-1") Sample.w0))).
Proof.
  apply (AbstractObject_init_duplicate uuid4_long "Request" "req-1" Sample.w0).
  - discriminate.
  - simpl. auto 10.
Defined.

Lemma declared_answers_receivable_witness :
  Refuse ∈ Initiator_receivable_messages /\
  RejectProposal ∈ Participant_receivable_messages.
Proof.
  split.
  - apply (declared_answers_receivable "cfp" Refuse); simpl; auto.
  - apply (declared_answers_receivable "propose" RejectProposal); simpl; auto.
Defined.

Lemma handlers_named_after_classes_witness :
  exists k, class_method k = "accept_proposal" /\
            k ∈ Participant_receivable_messages.
Proof.
  destruct handlers_named_after_classes as (_ & HP & _).
  apply (HP "accept_proposal"). simpl. auto.
Defined.

(** ** Parsing completions (openai.py) *)

Lemma getitem_Ok (v : pyval) (key : string) (x : pyval) :
  getitem v key = Ok x <-> exists d, v = VDict d /\ dict_get key d = Some x.
Proof.
  split.
  - destruct v as [| b | z | s | l | d]; simpl; try discriminate.
    destruct (dict_get key d) as [y|] eqn:E; [| discriminate].
    intros [= <-]. now exists d.
  - intros (d & -> & E). simpl. now rewrite E.
Qed.

Section Parsing.

Variable json_loads : pyval -> result pyval.

(** Once the content of the first choice is known to hold the call, the
    membership assertion has passed and only the name check is left of the
    [throw_error] block. *)
Lemma parse_completion_fn_call_entry (completion : Completion) (choice : Choice)
    (rest : list Choice) (call : pyval) (fn_name : option string)
    (throw_error : bool) :
  choices completion = choice :: rest ->
  getitem (content choice) "function_call" = Ok call ->
  parse_completion_fn_call json_loads completion fn_name throw_error
  = (let* _ := (if throw_error
                then match fn_name with
                     | Some f => let* name := getitem call "name" in
                                 py_assert (is_str f name)
                     | None => Ok tt
                     end
                else Ok tt) in
     let* name := getitem call "name" in
     let* kwargs := parse_completion_kwargs json_loads completion in
     Ok (name, kwargs)).
Proof.
  intros Hc Hcall. apply getitem_Ok in Hcall. destruct Hcall as (d & Hd & Hget).
  unfold parse_completion_fn_call. rewrite Hc. simpl. rewrite Hd. simpl.
  rewrite Hget. simpl. destruct throw_error; [| reflexivity].
  simpl. destruct fn_name; reflexivity.
Qed.

Lemma parse_completion_fn_call_Ok_entry (completion : Completion)
    (fn_name : option string) (throw_error : bool) (r : pyval * pyval) :
  parse_completion_fn_call json_loads completion fn_name throw_error = Ok r ->
  exists choice rest call,
    choices completion = choice :: rest /\
    getitem (content choice) "function_call" = Ok call.
Proof.
  unfold parse_completion_fn_call.
  destruct (choices completion) as [|choice rest]; simpl; [discriminate |].
  intros H. exists choice, rest.
  destruct (getitem (content choice) "function_call") as [call|e] eqn:E.
  - now exists call.
  - exfalso. destruct throw_error; simpl in H; [| discriminate H].
    destruct (contains "function_call" (content choice)) as [[|]|];
      simpl in H; try discriminate H.
    destruct fn_name; simpl in H; discriminate H.
Qed.

(** X8. [parse_completion_fn_call] returns the pair (name, arguments)
    exactly when the content of the first choice holds a call with that
    name, the message of the first choice yields the arguments, and, should
    [throw_error] be set and a function name be given, the two names are
    equal. *)
Theorem parse_completion_fn_call_returns (completion : Completion)
    (fn_name : option string) (throw_error : bool) (name kwargs : pyval) :
  parse_completion_fn_call json_loads completion fn_name throw_error
    = Ok (name, kwargs)
  <->
  exists choice rest call,
    choices completion = choice :: rest /\
    getitem (content choice) "function_call" = Ok call /\
    getitem call "name" = Ok name /\
    parse_completion_kwargs json_loads completion = Ok kwargs /\
    (throw_error = true ->
     forall f, fn_name = Some f -> is_str f name = true).
Proof.
  split.
  - intros H.
    destruct (parse_completion_fn_call_Ok_entry _ _ _ _ H)
      as (choice & rest & call & Hc & Hcall).
    rewrite (parse_completion_fn_call_entry _ _ _ _ _ _ Hc Hcall) in H.
    exists choice, rest, call. split; [exact Hc | split; [exact Hcall |]].
    destruct (getitem call "name") as [n|e] eqn:En.
    + destruct (parse_completion_kwargs json_loads completion) as [kw|e] eqn:Ek.
      * destruct throw_error; simpl in H.
        -- destruct fn_name as [f|]; simpl in H.
           ++ destruct (is_str f n) eqn:Ef; simpl in H; [| discriminate H].
              injection H as <- <-. repeat split. now intros _ f' [= <-].
           ++ injection H as <- <-. repeat split. intros _ f'. discriminate.
        -- injection H as <- <-. repeat split. discriminate.
      * destruct throw_error; simpl in H; [| discriminate H].
        destruct fn_name as [f|]; simpl in H; [| discriminate H].
        destruct (is_str f n); simpl in H; discriminate H.
    + destruct throw_error; simpl in H; [| discriminate H].
      destruct fn_name; simpl in H; discriminate H.
  - intros (choice & rest & call & Hc & Hcall & Hn & Hk & Hf).
    rewrite (parse_completion_fn_call_entry _ _ _ _ _ _ Hc Hcall).
    rewrite Hn, Hk. destruct throw_error; simpl; [| reflexivity].
    destruct fn_name as [f|]; simpl; [| reflexivity].
    now rewrite (Hf eq_refl f eq_refl).
Qed.

(** X9. The [throw_error] block only filters. When the call with
    [throw_error=False] returns a pair, it returns that pair whatever
    function name is passed, and the call with [throw_error=True] returns
    the same pair if no name is passed or the names agree, and raises
    [AssertionError] otherwise. *)
Theorem throw_error_only_filters (completion : Completion)
    (fn_name : option string) (name kwargs : pyval) :
  parse_completion_fn_call json_loads completion fn_name false
    = Ok (name, kwargs) ->
  (forall other : option string,
     parse_completion_fn_call json_loads completion other false
     = Ok (name, kwargs)) /\
  parse_completion_fn_call json_loads completion fn_name true
  = (if match fn_name with Some f => is_str f name | None => true end
     then Ok (name, kwargs)
     else Raise AssertionError).
Proof.
  intros H.
  destruct (parse_completion_fn_call_Ok_entry _ _ _ _ H)
    as (choice & rest & call & Hc & Hcall).
  rewrite (parse_completion_fn_call_entry _ _ _ _ _ _ Hc Hcall) in H.
  simpl in H.
  split.
  - intros other.
    rewrite (parse_completion_fn_call_entry _ _ _ _ _ _ Hc Hcall). exact H.
  - rewrite (parse_completion_fn_call_entry _ _ _ _ _ _ Hc Hcall).
    destruct (getitem call "name") as [n|e]; [| discriminate H].
    destruct (parse_completion_kwargs json_loads completion) as [kw|e];
      [| discriminate H].
    injection H as <- <-.
    destruct fn_name as [f|]; simpl; [| reflexivity].
    destruct (is_str f n); reflexivity.
Qed.

(** X10. The name is read from the content of the first choice, the
    arguments from its message. When the content holds the call but the
    message does not, the checks of [throw_error] pass and the call still
    raises: [KeyError] if the message is a dictionary, [TypeError] if it is
    anything else. *)
Theorem parse_completion_fn_call_split (completion : Completion)
    (choice : Choice) (rest : list Choice) (call name : pyval)
    (throw_error : bool) :
  choices completion = choice :: rest ->
  getitem (content choice) "function_call" = Ok call ->
  getitem call "name" = Ok name ->
  has_entry (message choice) "function_call" = false ->
  parse_completion_fn_call json_loads completion None throw_error
  = Raise (match message choice with
           | VDict _ => KeyError "function_call"
           | _ => TypeError
           end).
Proof.
  intros Hc Hcall Hn Hno.
  rewrite (parse_completion_fn_call_entry _ _ _ _ _ _ Hc Hcall), Hn.
  assert (Hk : parse_completion_kwargs json_loads completion
               = Raise (match message choice with
                        | VDict _ => KeyError "function_call"
                        | _ => TypeError
                        end)).
  { unfold parse_completion_kwargs. rewrite Hc. simpl.
    unfold has_entry in Hno.
    destruct (message choice) as [| b | z | s | l | d]; simpl; try reflexivity.
    destruct (dict_get "function_call" d); [discriminate | reflexivity]. }
  rewrite Hk. destruct throw_error; reflexivity.
Qed.

(** X11. With [throw_error=True] a dictionary content without the call
    fails the assertion before the subscript is reached: the error is
    [AssertionError], where [throw_error=False] gives [KeyError]. *)
Theorem parse_completion_fn_call_asserts (completion : Completion)
    (choice : Choice) (rest : list Choice) (d : dict)
    (fn_name : option string) :
  choices completion = choice :: rest ->
  content choice = VDict d ->
  dict_get "function_call" d = None ->
  parse_completion_fn_call json_loads completion fn_name true
    = Raise AssertionError /\
  parse_completion_fn_call json_loads completion fn_name false
    = Raise (KeyError "function_call").
Proof.
  intros Hc Hd Hget. unfold parse_completion_fn_call.
  rewrite Hc. simpl. rewrite Hd. simpl. rewrite Hget. split; reflexivity.
Qed.

End Parsing.

(** The sample call parses to its name and its decoded arguments. *)
Example parse_completion_fn_call_sample :
  parse_completion_fn_call Fixtures.json_price Fixtures.call_completion
    (Some "bid") true
  = Ok (VStr "bid", VDict [("price", VInt 3)]).
Proof. reflexivity. Qed.

Lemma throw_error_only_filters_witness :
  parse_completion_fn_call Fixtures.json_price Fixtures.call_completion
    (Some "ask") false
  = Ok (VStr "bid", VDict [("price", VInt 3)]) /\
  parse_completion_fn_call Fixtures.json_price Fixtures.call_completion
    (Some "ask") true
  = Raise AssertionError.
Proof.
  destruct (throw_error_only_filters Fixtures.json_price Fixtures.call_completion
              (Some "ask") (VStr "bid") (VDict [("price", VInt 3)]))
    as [Hany Htrue].
  - reflexivity.
  - split; [apply Hany | exact Htrue].
Defined.

Lemma parse_completion_fn_call_split_witness :
  parse_completion_fn_call Fixtures.json_price Fixtures.split_completion None true
  = Raise (KeyError "function_call").
Proof.
  apply (parse_completion_fn_call_split Fixtures.json_price
           Fixtures.split_completion
           {| content := VDict [("function_call", VDict [("name", VStr "bid")])];
              message := VDict [("content", VStr "hello")] |}
           [] (VDict [("name", VStr "bid")]) (VStr "bid") true);
    reflexivity.
Defined.

Lemma parse_completion_fn_call_asserts_witness :
  parse_completion_fn_call Sample.no_json Sample.text_completion (Some "bid") true
    = Raise AssertionError /\
  parse_completion_fn_call Sample.no_json Sample.text_completion (Some "bid") false
    = Raise (KeyError "function_call").
Proof.
  apply (parse_completion_fn_call_asserts Sample.no_json Sample.text_completion
           {| content := VDict [("role", VStr "assistant")];
              message := VDict [("content", VStr "hello")] |}
           [] [("role", VStr "assistant")] (Some "bid"));
    reflexivity.
Defined.

(** ** Callers of the parser (openai.py) *)

Section Callers.

Variable json_loads : pyval -> result pyval.
Variable T : Type.

(** X12. [call_agent_fn] and [acall_agent_fn] never reach the agent. They
    unpack the pair that [parse_completion_fn_call] returns with [**],
    which wants a mapping: when parsing raises they raise the same error,
    and when parsing returns they raise [TypeError], whatever [receive]
    is. *)
Theorem call_agent_fn_never_receives (completion : Completion)
    (node_name : string) (receive : dict -> result T) (throw_error : bool) :
  call_agent_fn json_loads T completion node_name receive throw_error
  = Raise (match parse_completion_fn_call json_loads completion
                   (Some node_name) throw_error with
           | Ok _ => TypeError
           | Raise e => e
           end) /\
  acall_agent_fn json_loads T completion node_name receive throw_error
  = call_agent_fn json_loads T completion node_name receive throw_error.
Proof.
  unfold call_agent_fn, acall_agent_fn. split; [| reflexivity].
  destruct (parse_completion_fn_call json_loads completion (Some node_name)
              throw_error) as [[name kwargs]|e]; reflexivity.
Qed.

(** X13. [parse_model] builds the model from the decoded arguments only if
    they are an object: when the arguments of the call decode to any other
    value, [**] raises [TypeError] and the model is not called. *)
Theorem parse_model_wants_object (model : dict -> result T)
    (completion : Completion) (choice : Choice) (rest : list Choice)
    (call arguments decoded : pyval) :
  choices completion = choice :: rest ->
  getitem (message choice) "function_call" = Ok call ->
  getitem call "arguments" = Ok arguments ->
  json_loads arguments = Ok decoded ->
  parse_model json_loads T model completion
  = match decoded with
    | VDict d => model d
    | _ => Raise TypeError
    end.
Proof.
  intros Hc Hcall Hargs Hdec. unfold parse_model, parse_completion_kwargs.
  rewrite Hc. simpl. rewrite Hcall. simpl. rewrite Hargs. simpl.
  rewrite Hdec. simpl. destruct decoded; reflexivity.
Qed.

(** X14. A completion without choices makes every entry point raise
    [IndexError] at [choices[0]], before any decoding, assertion or call of
    the model or the agent. *)
Theorem no_choices_IndexError (completion : Completion)
    (fn_name : option string) (throw_error : bool) (node_name : string)
    (model receive : dict -> result T) :
  choices completion = [] ->
  parse_completion_kwargs json_loads completion = Raise IndexError /\
  parse_completion_fn_call json_loads completion fn_name throw_error
    = Raise IndexError /\
  parse_model json_loads T model completion = Raise IndexError /\
  call_agent_fn json_loads T completion node_name receive throw_error
    = Raise IndexError.
Proof.
  intros Hc.
  unfold call_agent_fn, parse_model, parse_completion_fn_call,
    parse_completion_kwargs.
  rewrite Hc. repeat split.
Qed.

End Callers.

Example call_agent_fn_sample :
  call_agent_fn Fixtures.json_price dict Fixtures.call_completion "bid"
    Fixtures.keep_kwargs true
  = Raise TypeError.
Proof. reflexivity. Qed.

Lemma parse_model_wants_object_witness :
  parse_model Fixtures.json_list dict Fixtures.keep_kwargs Fixtures.call_completion
    = Raise TypeError /\
  parse_model Fixtures.json_price dict Fixtures.keep_kwargs Fixtures.call_completion
    = Ok [("price", VInt 3)].
Proof.
  split.
  - apply (parse_model_wants_object Fixtures.json_list dict Fixtures.keep_kwargs
             Fixtures.call_completion
             {| content := VDict [("function_call", VDict [("name", VStr "bid")])];
                message := VDict [("function_call",
                                   VDict [("name", VStr "bid");
                                          ("arguments", VStr "{price: 3}")])] |}
             [] (VDict [("name", VStr "bid"); ("arguments", VStr "{price: 3}")])
             (VStr "{price: 3}") (VList [VInt 3])); reflexivity.
  - apply (parse_model_wants_object Fixtures.json_price dict Fixtures.keep_kwargs
             Fixtures.call_completion
             {| content := VDict [("function_call", VDict [("name", VStr "bid")])];
                message := VDict [("function_call",
                                   VDict [("name", VStr "bid");
                                          ("arguments", VStr "{price: 3}")])] |}
             [] (VDict [("name", VStr "bid"); ("arguments", VStr "{price: 3}")])
             (VStr "{price: 3}") (VDict [("price", VInt 3)])); reflexivity.
Defined.

Lemma no_choices_IndexError_witness :
  parse_completion_fn_call Fixtures.json_price {| choices := [] |} (Some "bid") true
  = Raise IndexError.
Proof.
  apply (no_choices_IndexError Fixtures.json_price dict {| choices := [] |}
           (Some "bid") true "bid" Fixtures.keep_kwargs Fixtures.keep_kwargs).
  reflexivity.
Defined.

(** ** Requests one after the other *)

Section Successive.

Variable uuid4 : World -> string.
Hypothesis uuid4_new : never_reissued uuid4.

(** X15. Two requests never share a CFP id: when a second batch is built in
    a world that still knows every entity of the world the first batch
    left behind, no CFP of the second carries the id of a CFP of the
    first, whether the nets and the requests are the same or not. *)
Theorem successive_requests_disjoint (net1 net2 : ContractNet)
    (message1 message2 : Message) (w w2 : World) (m m' : Message) :
  (forall i, In i (used (snd (cfp_batch uuid4 (manager net1) message1
                                (contractors net1) w))) ->
             In i (used w2)) ->
  In m (fst (cfp_batch uuid4 (manager net1) message1 (contractors net1) w)) ->
  In m' (fst (cfp_batch uuid4 (manager net2) message2 (contractors net2) w2)) ->
  id m <> id m'.
Proof.
  intros Hgrow Hm Hm' Heq.
  destruct (cfp_batch_ids uuid4 uuid4_new (manager net1) message1
              (contractors net1) w) as (Hused & _ & _).
  destruct (cfp_batch_ids uuid4 uuid4_new (manager net2) message2
              (contractors net2) w2) as (_ & _ & Hnew).
  apply (Hnew (id m')); [now apply in_map |].
  apply Hgrow. rewrite Hused. apply in_or_app. right.
  rewrite <- Heq. now apply in_map.
Qed.

End Successive.

Lemma successive_requests_disjoint_witness :
  id {| cls := CFP; id := "CFP:000000"; sender := Some Sample.alice;
        receiver := Some Sample.bob; method := "request";
        reply_to := Some "req-1"; metadata := [("foo", VStr "bar")] |}
  <> id {| cls := CFP; id := "CFP:000000000000000000000";
           sender := Some Sample.alice; receiver := Some Sample.bob;
           method := "request"; reply_to := Some "req-1";
           metadata := [("foo", VStr "bar")] |}.
Proof.
  apply (successive_requests_disjoint uuid4_long uuid4_long_never_reissued
           Sample.net0 Sample.net0 Sample.req Sample.req Sample.w0
           (snd (cfp_batch uuid4_long (manager Sample.net0) Sample.req
                   (contractors Sample.net0) Sample.w0))).
  - intros i Hi. exact Hi.
  - simpl. left. reflexivity.
  - simpl. left. reflexivity.
Defined.
